(** * TodoApp: the task-list component of task-zen-eaze

    A shallow embedding of [src/components/TodoApp.tsx].  The component owns
    six pieces of React state and a handful of event handlers.  A handler
    runs against the state captured by the render it was created in, queues
    state updates and toasts, and React commits the queue afterwards.  The
    embedding keeps that shape: a handler is a function from the captured
    state to the list of effects it issues, and [commit] applies them. *)

From Stdlib Require Import List ZArith NArith Bool String Ascii Lia.
Import ListNotations.

Set Implicit Arguments.
Local Open Scope Z_scope.

(** ** JavaScript strings *)

(** A JavaScript string is a sequence of UTF-16 code units. *)
Definition jsstring := list N.

(** An ASCII literal of the source, as code units. *)
Fixpoint lit (s : string) : jsstring :=
  match s with
  | EmptyString => []
  | String c s' => N_of_ascii c :: lit s'
  end.

Fixpoint jsstring_eqb (a b : jsstring) : bool :=
  match a, b with
  | [], [] => true
  | x :: a', y :: b' => N.eqb x y && jsstring_eqb a' b'
  | _, _ => false
  end.

(** The code units [String.prototype.trim] strips: ECMAScript WhiteSpace
    (TAB, VT, FF, ZWNBSP and the Unicode space separators) and
    LineTerminator (LF, CR, LS, PS). *)
Definition is_white_space (c : N) : bool :=
  let inb lo hi := (N.leb lo c && N.leb c hi)%bool in
  (inb 0x09 0x0D || N.eqb c 0x20 || N.eqb c 0xA0 || N.eqb c 0x1680
   || inb 0x2000 0x200A || inb 0x2028 0x2029 || N.eqb c 0x202F
   || N.eqb c 0x205F || N.eqb c 0x3000 || N.eqb c 0xFEFF)%bool%N.

Fixpoint trimStart (s : jsstring) : jsstring :=
  match s with
  | [] => []
  | c :: s' => if is_white_space c then trimStart s' else s
  end.

Definition trimEnd (s : jsstring) : jsstring := rev (trimStart (rev s)).

Definition trim (s : jsstring) : jsstring := trimEnd (trimStart s).

(** Truthiness of a string: only the empty string is falsy. *)
Definition truthy (s : jsstring) : bool :=
  match s with [] => false | _ :: _ => true end.

(** ** Data model *)

(** [priority: 'high' | 'medium' | 'low'] *)
Inductive Priority := high | medium | low.

(** The filter state, ['all' | 'high' | 'medium' | 'low']. *)
Inductive FilterValue := f_all | f_high | f_medium | f_low.

(** Both unions are string literals at run time and are compared with
    [===] as strings. *)
Definition priority_lit (p : Priority) : jsstring :=
  match p with
  | high => lit "high"
  | medium => lit "medium"
  | low => lit "low"
  end.

Definition filter_lit (f : FilterValue) : jsstring :=
  match f with
  | f_all => lit "all"
  | f_high => lit "high"
  | f_medium => lit "medium"
  | f_low => lit "low"
  end.

(** The filter value that selects a given priority. *)
Definition filter_of (p : Priority) : FilterValue :=
  match p with
  | high => f_high
  | medium => f_medium
  | low => f_low
  end.

(** [interface Todo].  [id] is a number produced by [Date.now()], an
    integer count of milliseconds; [createdAt] is a [Date], kept as its
    time value. *)
Record Todo := mkTodo {
  id : Z;
  text : jsstring;
  priority : Priority;
  completed : bool;
  createdAt : Z
}.

(** [{ ...todo, text: s }] *)
Definition with_text (todo : Todo) (s : jsstring) : Todo :=
  {| id := id todo; text := s; priority := priority todo;
     completed := completed todo; createdAt := createdAt todo |}.

(** [{ ...todo, completed: b }] *)
Definition with_completed (todo : Todo) (b : bool) : Todo :=
  {| id := id todo; text := text todo; priority := priority todo;
     completed := b; createdAt := createdAt todo |}.

(** The argument of [toast]. *)
Inductive Variant := normal | destructive.

Record Toast := mkToast {
  title : jsstring;
  description : jsstring;
  variant : Variant
}.

(** The six [useState] cells of the component. *)
Record State := mkState {
  todos : list Todo;
  newTodo : jsstring;
  newPriority : Priority;
  editingId : option Z;
  editText : jsstring;
  filter : FilterValue
}.

(** The initial values passed to [useState]. *)
Definition initial : State :=
  {| todos := []; newTodo := []; newPriority := medium;
     editingId := None; editText := []; filter := f_all |}.

(** ** Effects *)

(** What a handler can do: call one of the six setters, or [toast]. *)
Inductive Effect :=
| setTodos (l : list Todo)
| setNewTodo (s : jsstring)
| setNewPriority (p : Priority)
| setEditingId (o : option Z)
| setEditText (s : jsstring)
| setFilter (f : FilterValue)
| toast (t : Toast).

(** A handler closes over the state of its render. *)
Definition Handler := State -> list Effect.

Definition apply_effect (acc : State * list Toast) (e : Effect)
  : State * list Toast :=
  let (st, out) := acc in
  match e with
  | setTodos l =>
      (mkState l (newTodo st) (newPriority st) (editingId st)
               (editText st) (filter st), out)
  | setNewTodo s =>
      (mkState (todos st) s (newPriority st) (editingId st)
               (editText st) (filter st), out)
  | setNewPriority p =>
      (mkState (todos st) (newTodo st) p (editingId st)
               (editText st) (filter st), out)
  | setEditingId o =>
      (mkState (todos st) (newTodo st) (newPriority st) o
               (editText st) (filter st), out)
  | setEditText s =>
      (mkState (todos st) (newTodo st) (newPriority st) (editingId st)
               s (filter st), out)
  | setFilter f =>
      (mkState (todos st) (newTodo st) (newPriority st) (editingId st)
               (editText st) f, out)
  | toast t => (st, out ++ [t])
  end.

(** Committing the queued effects, in the order they were issued. *)
Definition commit (st : State) (es : list Effect) : State * list Toast :=
  fold_left apply_effect es (st, []).

(** Running a handler: the next state and the toasts shown. *)
Definition run (h : Handler) (st : State) : State * list Toast :=
  commit st (h st).

(** ** Handlers *)

(** [todo.id === editingId], with [editingId : number | null]. *)
Definition id_is (i : Z) (o : option Z) : bool :=
  match o with
  | Some e => Z.eqb i e
  | None => false
  end.

(** [addTodo].  [now] is the value [Date.now()] returns and [created] the
    time value of [new Date()]. *)
Definition addTodo (now created : Z) : Handler := fun st =>
  if negb (truthy (trim (newTodo st))) then
    [toast {| title := lit "Empty Task";
              description := lit "Please enter a task before adding.";
              variant := destructive |}]
  else
    let todo := {| id := now;
                   text := trim (newTodo st);
                   priority := newPriority st;
                   completed := false;
                   createdAt := created |} in
    [setTodos (todo :: todos st);
     setNewTodo [];
     setNewPriority medium;
     toast {| title := lit "Task Added";
              description := lit "Your task has been added successfully!";
              variant := normal |}].

(** [deleteTodo] *)
Definition deleteTodo (i : Z) : Handler := fun st =>
  [setTodos (List.filter (fun todo => negb (Z.eqb (id todo) i)) (todos st));
   toast {| title := lit "Task Deleted";
            description := lit "Task removed successfully.";
            variant := normal |}].

(** [startEdit] *)
Definition startEdit (todo : Todo) : Handler := fun _ =>
  [setEditingId (Some (id todo));
   setEditText (text todo)].

(** [saveEdit] *)
Definition saveEdit : Handler := fun st =>
  if negb (truthy (trim (editText st))) then
    [toast {| title := lit "Empty Task";
              description := lit "Task cannot be empty.";
              variant := destructive |}]
  else
    [setTodos (List.map (fun todo =>
                 if id_is (id todo) (editingId st)
                 then with_text todo (trim (editText st))
                 else todo) (todos st));
     setEditingId None;
     setEditText [];
     toast {| title := lit "Task Updated";
              description := lit "Your task has been updated successfully!";
              variant := normal |}].

(** [toggleComplete] *)
Definition toggleComplete (i : Z) : Handler := fun st =>
  [setTodos (List.map (fun todo =>
               if Z.eqb (id todo) i
               then with_completed todo (negb (completed todo))
               else todo) (todos st))].

(** The Escape branch of [handleEditKeyPress]. *)
Definition cancelEdit : Handler := fun _ =>
  [setEditingId None;
   setEditText []].

(** [filteredTodos], recomputed by every render. *)
Definition filteredTodos (st : State) : list Todo :=
  List.filter (fun todo =>
    if jsstring_eqb (filter_lit (filter st)) (lit "all") then true
    else jsstring_eqb (priority_lit (priority todo)) (filter_lit (filter st)))
    (todos st).

(** ** The component as a transition system *)

(** The input events the rendered markup can deliver.  The two clock
    readings of [addTodo] come with the event. *)
Inductive Event :=
| ChangeNewTodo (s : jsstring)        (* onChange of the new-task input *)
| ChangeNewPriority (p : Priority)    (* onValueChange of the priority select *)
| Add (now created : Z)               (* the Add Task button, or Enter *)
| Delete (i : Z)                      (* the trash button *)
| StartEdit (todo : Todo)             (* the edit button *)
| ChangeEditText (s : jsstring)       (* onChange of the edit input *)
| SaveEdit                            (* the Save button, Enter, or blur *)
| CancelEdit                          (* Escape *)
| ToggleComplete (i : Z)              (* the checkbox *)
| ChangeFilter (f : FilterValue).     (* onValueChange of the filter select *)

Definition handler (ev : Event) : Handler :=
  match ev with
  | ChangeNewTodo s => fun _ => [setNewTodo s]
  | ChangeNewPriority p => fun _ => [setNewPriority p]
  | Add now created => addTodo now created
  | Delete i => deleteTodo i
  | StartEdit todo => startEdit todo
  | ChangeEditText s => fun _ => [setEditText s]
  | SaveEdit => saveEdit
  | CancelEdit => cancelEdit
  | ToggleComplete i => toggleComplete i
  | ChangeFilter f => fun _ => [setFilter f]
  end.

(** The state after a handler has run, and the toasts it showed. *)
Definition next (h : Handler) (st : State) : State := fst (run h st).
Definition notices (h : Handler) (st : State) : list Toast := snd (run h st).

Definition step (st : State) (ev : Event) : State := next (handler ev) st.

Definition run_events (evs : list Event) : State := fold_left step evs initial.

Inductive reachable : State -> Prop :=
| reachable_initial : reachable initial
| reachable_step st ev : reachable st -> reachable (step st ev).

(** A run in which every [Date.now()] read by [addTodo] differs from the
    ids already in the list. *)
Inductive reachable_fresh : State -> Prop :=
| fresh_initial : reachable_fresh initial
| fresh_add st now created :
    reachable_fresh st -> ~ In now (List.map id (todos st)) ->
    reachable_fresh (step st (Add now created))
| fresh_other st ev :
    reachable_fresh st -> (forall now created, ev <> Add now created) ->
    reachable_fresh (step st ev).

(** ** Vocabulary of the properties *)

(** [l1] is an order-preserving subsequence of [l2]. *)
Inductive subseq {A : Type} : list A -> list A -> Prop :=
| subseq_nil : subseq [] []
| subseq_skip x l1 l2 : subseq l1 l2 -> subseq l1 (x :: l2)
| subseq_keep x l1 l2 : subseq l1 l2 -> subseq (x :: l1) (x :: l2).

(** How many tasks of [l] carry the id [i]. *)
Definition occurrences (i : Z) (l : list Todo) : nat :=
  List.length (List.filter (fun todo => Z.eqb (id todo) i) l).

(** The notice of a rejected submission: the destructive "Empty Task"
    toast. *)
Definition validation_error (t : Toast) : Prop :=
  title t = lit "Empty Task" /\ variant t = destructive.

(** The ids of a task list are pairwise distinct. *)
Definition unique_ids (l : list Todo) : Prop := NoDup (List.map id l).

(** Sample data for the closed instances below. *)
Definition buy_milk : Todo :=
  {| id := 1700000000000; text := lit "Buy milk"; priority := high;
     completed := false; createdAt := 1700000000000 |}.

Definition call_bob : Todo :=
  {| id := 1700000005000; text := lit "Call Bob"; priority := low;
     completed := false; createdAt := 1700000005000 |}.

Definition two_tasks : State :=
  {| todos := [call_bob; buy_milk]; newTodo := lit "  Pay rent ";
     newPriority := high; editingId := Some 1700000000000;
     editText := lit " Buy oat milk  "; filter := f_low |}.

(** Two tasks submitted within the same millisecond. *)
Definition same_tick : list Event :=
  [ChangeNewTodo (lit "Buy milk"); Add 1700000000000 1700000000000;
   ChangeNewTodo (lit "Call Bob"); Add 1700000000000 1700000000000].

(** ** Keyboard handlers and the rendered view *)



(** [getPriorityColor], a [switch] over an arbitrary string. *)
Definition getPriorityColor (p : jsstring) : jsstring :=
  if jsstring_eqb p (lit "high") then lit "bg-priority-high text-white"
  else if jsstring_eqb p (lit "medium")
       then lit "bg-priority-medium text-foreground"
  else if jsstring_eqb p (lit "low") then lit "bg-priority-low text-white"
  else lit "bg-muted text-muted-foreground".

(** The card shown in place of the rows when [filteredTodos.length === 0],
    as its text; [None] when the rows are rendered instead. *)
Definition emptyMessage (st : State) : option jsstring :=
  if Nat.eqb (List.length (filteredTodos st)) 0 then
    Some (if jsstring_eqb (filter_lit (filter st)) (lit "all")
          then lit "No tasks yet. Add your first task above!"
          else lit "No " ++ filter_lit (filter st)
                 ++ lit " priority tasks found.")
  else None.

(** [editingId === todo.id]: the row renders the edit input and the Save
    button instead of the text and the edit button. *)
Definition showsEditInput (st : State) (todo : Todo) : bool :=
  match editingId st with
  | Some e => Z.eqb e (id todo)
  | None => false
  end.

(** The events the markup rendered from [st] can deliver: rows exist for
    the tasks of [filteredTodos] only, a row offers either the edit input
    with Save or the edit button, and the edit button is [disabled] on a
    completed task. *)
Definition enabled (st : State) (ev : Event) : Prop :=
  match ev with
  | ChangeNewTodo _ | ChangeNewPriority _ | Add _ _ | ChangeFilter _ => True
  | Delete i | ToggleComplete i =>
      exists todo, In todo (filteredTodos st) /\ id todo = i
  | StartEdit todo =>
      In todo (filteredTodos st) /\ showsEditInput st todo = false
      /\ completed todo = false
  | ChangeEditText _ | SaveEdit | CancelEdit =>
      exists todo, In todo (filteredTodos st) /\ showsEditInput st todo = true
  end.

(** The states the user can bring about through the markup. *)
Inductive reachable_ui : State -> Prop :=
| ui_initial : reachable_ui initial
| ui_step st ev : reachable_ui st -> enabled st ev -> reachable_ui (step st ev).

(** A string that neither starts nor ends with white space. *)
Definition starts_clean (s : jsstring) : Prop :=
  match s with
  | [] => True
  | c :: _ => is_white_space c = false
  end.

Definition well_trimmed (s : jsstring) : Prop :=
  s <> [] /\ starts_clean s /\ starts_clean (rev s).

(** Every code unit of the string is white space. *)
Definition blank (s : jsstring) : bool := forallb is_white_space s.

(** The tasks of priority [p], in list order. *)
Definition of_priority (p : Priority) (l : list Todo) : list Todo :=
  List.filter (fun todo =>
    jsstring_eqb (priority_lit (priority todo)) (priority_lit p)) l.

(** Typing a draft, choosing a priority and pressing Add, as events;
    both clock readings of the submission are [now]. *)
Definition submit (e : jsstring * Priority * Z) : list Event :=
  let '(draft, p, now) := e in
  [ChangeNewTodo draft; ChangeNewPriority p; Add now now].

(** The task such a submission stores. *)
Definition submitted (e : jsstring * Priority * Z) : Todo :=
  let '(draft, p, now) := e in
  {| id := now; text := trim draft; priority := p; completed := false;
     createdAt := now |}.

(** ** Basic facts *)

Lemma truthy_false_iff (s : jsstring) : truthy s = false <-> s = [].
Proof. destruct s; simpl; split; congruence. Qed.

Lemma truthy_true_iff (s : jsstring) : truthy s = true <-> s <> [].
Proof. destruct s; simpl; split; congruence. Qed.

Lemma jsstring_eqb_eq (a b : jsstring) : jsstring_eqb a b = true <-> a = b.
Proof.
  revert b; induction a as [|x a IH]; intros [|y b]; simpl;
    try (split; congruence).
  rewrite andb_true_iff, N.eqb_eq, IH. split.
  - intros [-> ->]; reflexivity.
  - intros E; injection E; auto.
Qed.

(** [trim] strips both ends and keeps inner white space. *)
Example trim_pay_rent : trim (lit "  Pay rent ") = lit "Pay rent".
Proof. reflexivity. Qed.

Example trim_blank : trim (lit "   ") = [] /\ trim (lit "") = [].
Proof. split; reflexivity. Qed.

(** TAB, LF, CR, NBSP and the byte order mark are stripped as well. *)
Example trim_unicode :
  trim ([0x09; 0x0A; 0xA0; 0xFEFF] ++ lit "x" ++ [0x0D; 0x3000])%N = lit "x".
Proof. reflexivity. Qed.

(** Comparing a task's priority with the filter, as strings, is comparing
    it with the priority the filter stands for. *)
Lemma priority_matches_filter (p q : Priority) :
  jsstring_eqb (priority_lit p) (filter_lit (filter_of q)) = true <-> p = q.
Proof. destruct p, q; simpl; split; congruence. Qed.

Lemma with_completed_twice (todo : Todo) :
  with_completed (with_completed todo (negb (completed todo)))
                 (negb (negb (completed todo))) = todo.
Proof. destruct todo; unfold with_completed; simpl. now rewrite negb_involutive. Qed.

(** The state a handler leaves is the captured state with its setters
    applied; unfolding a handler exposes it. *)
Ltac run_handler h :=
  unfold next, notices, run, commit, h; simpl.

Ltac by_draft s :=
  let E := fresh "E" in
  destruct (truthy s) eqn:E; simpl;
  [ apply truthy_true_iff in E | apply truthy_false_iff in E ];
  try congruence.

(** ** Adding a task *)

(** C1. In any state whose draft [s] trims to a non-empty string, with
    priority [p] selected, [addTodo] makes the list one longer by
    prepending a task with text [trim s], priority [p] and
    [completed = false] to the old list, which is otherwise untouched, and
    resets the draft to the empty string and the selector to [medium]. *)
Theorem addTodo_prepends (st : State) (s : jsstring) (p : Priority)
    (now created : Z) :
  newTodo st = s -> newPriority st = p -> trim s <> [] ->
  let st' := next (addTodo now created) st in
  List.length (todos st') = S (List.length (todos st))
  /\ (exists todo,
        todos st' = todo :: todos st
        /\ hd_error (todos st') = Some todo
        /\ text todo = trim s /\ priority todo = p
        /\ completed todo = false
        /\ id todo = now /\ createdAt todo = created)
  /\ newTodo st' = [] /\ newPriority st' = medium
  /\ editingId st' = editingId st /\ editText st' = editText st
  /\ filter st' = filter st
  /\ Forall (fun t => variant t = normal) (notices (addTodo now created) st).
Proof.
  intros <- <- Hs. run_handler addTodo.
  by_draft (trim (newTodo st)).
  repeat split; auto.
  eexists; repeat split.
Qed.

Lemma addTodo_prepends_witness :
  let st' := next (addTodo 1700000009000 1700000009001) two_tasks in
  todos st' =
    {| id := 1700000009000; text := lit "Pay rent"; priority := high;
       completed := false; createdAt := 1700000009001 |}
    :: [call_bob; buy_milk]
  /\ newTodo st' = [] /\ newPriority st' = medium.
Proof.
  destruct (@addTodo_prepends two_tasks (lit "  Pay rent ") high
              1700000009000 1700000009001)
    as (_ & (todo & Ht & _ & Htx & Hpr & Hc & Hid & Hcr) & Hd & Hp & _).
  - reflexivity.
  - reflexivity.
  - vm_compute; discriminate.
  - cbv zeta. split; [|split; [exact Hd | exact Hp]].
    rewrite Ht. destruct todo; simpl in *; subst. reflexivity.
Defined.

(** C2. In any state whose draft trims to the empty string, whatever the
    selected priority, [addTodo] shows the destructive "Empty Task" notice
    and changes nothing: the task list, draft, selected priority, edit
    state and filter are as before. *)
Theorem addTodo_rejects_blank (st : State) (s : jsstring) (p : Priority)
    (now created : Z) :
  newTodo st = s -> newPriority st = p -> trim s = [] ->
  next (addTodo now created) st = st
  /\ exists t, notices (addTodo now created) st = [t] /\ validation_error t.
Proof.
  intros <- <- Hs. run_handler addTodo. rewrite Hs; simpl.
  split; [reflexivity|]. eexists; split; [reflexivity|]. now split.
Qed.

Lemma addTodo_rejects_blank_witness :
  let blank := mkState [buy_milk] (lit "   ") low (Some 7) (lit "x") f_high in
  next (addTodo 5 5) blank = blank
  /\ next (addTodo 5 5) initial = initial.
Proof.
  split.
  - apply (@addTodo_rejects_blank
             (mkState [buy_milk] (lit "   ") low (Some 7) (lit "x") f_high)
             (lit "   ") low 5 5); reflexivity.
  - apply (@addTodo_rejects_blank initial (lit "") medium 5 5); reflexivity.
Defined.

(** ** Filtering and subsequences *)

Section Filtering.
Variable A : Type.
Variable keep : A -> bool.

Lemma filter_subseq (l : list A) : subseq (List.filter keep l) l.
Proof.
  induction l as [|x l IH]; simpl.
  - constructor.
  - destruct (keep x); now constructor.
Qed.

Lemma filter_all_kept (l : list A) :
  Forall (fun x => keep x = true) (List.filter keep l).
Proof.
  apply Forall_forall. intros x Hx. now apply filter_In in Hx.
Qed.

(** Every subsequence made of kept elements survives the filter. *)
Lemma subseq_filter_greatest (l' l : list A) :
  subseq l' l -> Forall (fun x => keep x = true) l' ->
  subseq l' (List.filter keep l).
Proof.
  induction 1 as [|x l1 l2 _ IH|x l1 l2 _ IH]; intros Hall; simpl.
  - constructor.
  - destruct (keep x); [apply subseq_skip|]; auto.
  - inversion Hall as [|? ? Hx Hl1]; subst.
    rewrite Hx. apply subseq_keep; auto.
Qed.

Lemma filter_keeps_everything (l : list A) :
  (forall x, In x l -> keep x = true) -> List.filter keep l = l.
Proof.
  induction l as [|x l IH]; simpl; intros H; [reflexivity|].
  rewrite (H x) by now left. f_equal. apply IH. intros; apply H; now right.
Qed.

(** Filtering out the one element that fails [keep] splits the list
    around it. *)
Lemma filter_drops_single (l : list A) :
  List.length (List.filter (fun x => negb (keep x)) l) = 1%nat ->
  exists l1 x l2,
    l = l1 ++ x :: l2 /\ keep x = false
    /\ List.filter keep l = l1 ++ l2.
Proof.
  induction l as [|x l IH]; simpl; [discriminate|].
  destruct (keep x) eqn:Hx; simpl.
  - intros H. destruct (IH H) as (l1 & y & l2 & -> & Hy & Hf).
    exists (x :: l1), y, l2. simpl. rewrite Hf. auto.
  - intros H. injection H as H. exists [], x, l. simpl.
    repeat split; auto. apply filter_keeps_everything.
    intros y Hy. destruct (keep y) eqn:Ey; [reflexivity|].
    apply length_zero_iff_nil in H.
    assert (In y (List.filter (fun x => negb (keep x)) l))
      by (apply filter_In; split; [assumption | now rewrite Ey]).
    rewrite H in *. contradiction.
Qed.
End Filtering.

Lemma subseq_length (A : Type) (l1 l2 : list A) :
  subseq l1 l2 -> (List.length l1 <= List.length l2)%nat.
Proof. induction 1; simpl; lia. Qed.

(** ** Saving an edit *)

(** The list [saveEdit] stores, position by position. *)
Lemma saveEdit_todos (st : State) :
  trim (editText st) <> [] ->
  todos (next saveEdit st) =
  List.map (fun todo => if id_is (id todo) (editingId st)
                        then with_text todo (trim (editText st))
                        else todo) (todos st).
Proof. intros H. run_handler saveEdit. by_draft (trim (editText st)). Qed.

(** C3. While task [e] is being edited and the edit draft trims to a
    non-empty string, [saveEdit] keeps the length and order of the list;
    at every position the id, priority, completion flag and creation time
    are what they were, a task with id [e] gets the trimmed draft as its
    text, and a task with any other id is unchanged.  Afterwards no task is
    being edited and the edit draft is empty. *)
Theorem saveEdit_replaces_text (st : State) (e : Z) :
  editingId st = Some e -> trim (editText st) <> [] ->
  let st' := next saveEdit st in
  List.length (todos st') = List.length (todos st)
  /\ (forall k todo, nth_error (todos st) k = Some todo ->
        exists todo',
          nth_error (todos st') k = Some todo'
          /\ id todo' = id todo /\ priority todo' = priority todo
          /\ completed todo' = completed todo
          /\ createdAt todo' = createdAt todo
          /\ (id todo = e -> text todo' = trim (editText st))
          /\ (id todo <> e -> todo' = todo))
  /\ editingId st' = None /\ editText st' = []
  /\ newTodo st' = newTodo st /\ newPriority st' = newPriority st
  /\ filter st' = filter st.
Proof.
  intros He Hd st'. subst st'. rewrite saveEdit_todos by assumption.
  split; [apply length_map|]. split.
  - intros k todo Hk. rewrite nth_error_map, Hk; simpl.
    eexists; split; [reflexivity|]. rewrite He; simpl.
    destruct (Z.eqb_spec (id todo) e); simpl; repeat split; auto; congruence.
  - run_handler saveEdit. by_draft (trim (editText st)). repeat split.
Qed.

Lemma saveEdit_replaces_text_witness :
  let st' := next saveEdit two_tasks in
  todos st' = [call_bob; with_text buy_milk (lit "Buy oat milk")]
  /\ editingId st' = None /\ editText st' = [].
Proof.
  destruct (@saveEdit_replaces_text two_tasks 1700000000000)
    as (Hlen & Hnth & Hid & Htxt & _).
  - reflexivity.
  - vm_compute; discriminate.
  - cbv zeta. split; [|split; [exact Hid | exact Htxt]].
    destruct (Hnth 0%nat call_bob eq_refl) as (t0 & H0 & _ & _ & _ & _ & _ & K0).
    destruct (Hnth 1%nat buy_milk eq_refl)
      as (t1 & H1 & I1 & P1 & C1 & D1 & T1 & _).
    rewrite (K0 ltac:(vm_compute; discriminate)) in H0.
    destruct (todos (next saveEdit two_tasks)) as [|a [|b [|c l]]];
      simpl in Hlen, H0, H1; try discriminate.
    injection H0 as ->. injection H1 as ->.
    destruct t1; simpl in *; subst.
    rewrite (T1 eq_refl). reflexivity.
Defined.

(** C4. While a task is being edited and the edit draft trims to the
    empty string, [saveEdit] shows the destructive "Empty Task" notice and
    changes nothing: the same task id stays under edit, the draft is kept
    as typed, and the task list is as before. *)
Theorem saveEdit_rejects_blank (st : State) (e : Z) :
  editingId st = Some e -> trim (editText st) = [] ->
  let st' := next saveEdit st in
  (exists t, notices saveEdit st = [t] /\ validation_error t)
  /\ editingId st' = Some e
  /\ editText st' = editText st
  /\ todos st' = todos st
  /\ st' = st.
Proof.
  intros He Hd. run_handler saveEdit. rewrite Hd; simpl.
  repeat split; auto. eexists; split; [reflexivity|]. now split.
Qed.

Lemma saveEdit_rejects_blank_witness :
  let st := mkState [buy_milk] [] medium (Some 1700000000000) (lit "  ") f_all in
  editingId (next saveEdit st) = Some 1700000000000
  /\ editText (next saveEdit st) = lit "  "
  /\ todos (next saveEdit st) = [buy_milk].
Proof.
  destruct (@saveEdit_rejects_blank
              (mkState [buy_milk] [] medium (Some 1700000000000) (lit "  ") f_all)
              1700000000000)
    as (_ & Hid & Htxt & Hl & _).
  - reflexivity.
  - reflexivity.
  - cbv zeta. split; [exact Hid | split; [exact Htxt | exact Hl]].
Defined.

(** C10. When no task is being edited and the edit draft trims to a
    non-empty string, [saveEdit] stores the task list unchanged, still
    empties the edit draft, and shows the "Task Updated" notice. *)
Theorem saveEdit_without_target (st : State) :
  editingId st = None -> trim (editText st) <> [] ->
  let st' := next saveEdit st in
  todos st' = todos st
  /\ editText st' = []
  /\ editingId st' = None
  /\ notices saveEdit st =
       [{| title := lit "Task Updated";
           description := lit "Your task has been updated successfully!";
           variant := normal |}].
Proof.
  intros He Hd st'. subst st'. rewrite saveEdit_todos by assumption.
  rewrite He. simpl. split; [apply map_id|].
  run_handler saveEdit. by_draft (trim (editText st)). repeat split.
Qed.

Lemma saveEdit_without_target_witness :
  let st := mkState [call_bob; buy_milk] [] medium None (lit "stray") f_all in
  todos (next saveEdit st) = [call_bob; buy_milk]
  /\ editText (next saveEdit st) = [].
Proof.
  destruct (@saveEdit_without_target
              (mkState [call_bob; buy_milk] [] medium None (lit "stray") f_all))
    as (Hl & Ht & _).
  - reflexivity.
  - vm_compute; discriminate.
  - cbv zeta. split; [exact Hl | exact Ht].
Defined.

(** ** Deleting a task *)

Lemma deleteTodo_todos (st : State) (i : Z) :
  todos (next (deleteTodo i) st) =
  List.filter (fun todo => negb (Z.eqb (id todo) i)) (todos st).
Proof. reflexivity. Qed.

Lemma occurrences_as_dropped (i : Z) (l : list Todo) :
  occurrences i l =
  List.length
    (List.filter (fun todo => negb (negb (Z.eqb (id todo) i))) l).
Proof.
  unfold occurrences. f_equal. apply filter_ext.
  intros todo. now rewrite negb_involutive.
Qed.

(** C5. If exactly one task carries the id, [deleteTodo] cuts that task
    out of the list: the list is one shorter, what stood before and after
    the task keeps its order, and the id is gone.  If no task carries the
    id, the list is stored unchanged.  Either way the only notice is the
    ordinary "Task Deleted" one, and the rest of the state is untouched. *)
Theorem deleteTodo_removes (st : State) (i : Z) :
  let st' := next (deleteTodo i) st in
  (occurrences i (todos st) = 1%nat ->
     S (List.length (todos st')) = List.length (todos st)
     /\ (exists l1 todo l2,
           todos st = l1 ++ todo :: l2 /\ id todo = i
           /\ todos st' = l1 ++ l2)
     /\ ~ In i (List.map id (todos st')))
  /\ ((forall todo, In todo (todos st) -> id todo <> i) ->
        todos st' = todos st /\ st' = st)
  /\ Forall (fun t => variant t = normal) (notices (deleteTodo i) st)
  /\ newTodo st' = newTodo st /\ newPriority st' = newPriority st
  /\ editingId st' = editingId st /\ editText st' = editText st
  /\ filter st' = filter st.
Proof.
  intros st'. subst st'. rewrite deleteTodo_todos.
  split; [|split; [|split; [|repeat split]]].
  - intros Hone. rewrite occurrences_as_dropped in Hone.
    destruct (filter_drops_single _ _ Hone) as (l1 & todo & l2 & Hl & Hx & Hf).
    apply negb_false_iff, Z.eqb_eq in Hx.
    split; [|split].
    + rewrite Hf, Hl, !length_app. simpl. lia.
    + exists l1, todo, l2. auto.
    + intros Hin. apply in_map_iff in Hin as (t & Ht & Hin).
      apply filter_In in Hin as [_ Hin].
      apply negb_true_iff, Z.eqb_neq in Hin. contradiction.
  - intros Habs.
    assert (E : List.filter (fun todo => negb (Z.eqb (id todo) i)) (todos st)
                = todos st).
    { apply filter_keeps_everything. intros todo Hin.
      apply negb_true_iff, Z.eqb_neq. now apply Habs. }
    split; [exact E|]. run_handler deleteTodo. rewrite E. now destruct st.
  - run_handler deleteTodo. repeat constructor.
Qed.

Lemma deleteTodo_removes_witness :
  (occurrences 1700000005000 (todos two_tasks) = 1%nat
   /\ S (List.length (todos (next (deleteTodo 1700000005000) two_tasks))) = 2%nat
   /\ ~ In 1700000005000
          (List.map id (todos (next (deleteTodo 1700000005000) two_tasks))))
  /\ todos (next (deleteTodo 42) two_tasks) = [call_bob; buy_milk].
Proof.
  split.
  - destruct (deleteTodo_removes two_tasks 1700000005000) as (H & _).
    destruct (H eq_refl) as (Hlen & _ & Hgone).
    split; [reflexivity | split; [exact Hlen | exact Hgone]].
  - destruct (deleteTodo_removes two_tasks 42) as (_ & H & _).
    apply H. intros todo [<-|[<-|[]]]; vm_compute; discriminate.
Defined.

(** ** Toggling completion *)

Lemma toggleComplete_todos (st : State) (i : Z) :
  todos (next (toggleComplete i) st) =
  List.map (fun todo => if Z.eqb (id todo) i
                        then with_completed todo (negb (completed todo))
                        else todo) (todos st).
Proof. reflexivity. Qed.

(** Two toggles with the same id restore the state, whatever the id. *)
Lemma toggleComplete_twice (st : State) (i : Z) :
  next (toggleComplete i) (next (toggleComplete i) st) = st.
Proof.
  destruct st as [l nt np ei et f]. run_handler toggleComplete. f_equal.
  rewrite map_map. rewrite <- (map_id l) at 2. apply map_ext.
  intros todo. destruct (Z.eqb (id todo) i) eqn:E; simpl; rewrite E.
  - apply with_completed_twice.
  - reflexivity.
Qed.

(** C6. For an id present in the list, one [toggleComplete] negates the
    completion flag of the tasks with that id and nothing else, and a
    second one gives back the original state: the list is equal to the
    original, task by task and field by field. *)
Theorem toggleComplete_involution (st : State) (i : Z) :
  In i (List.map id (todos st)) ->
  let once := next (toggleComplete i) st in
  let twice := next (toggleComplete i) once in
  (forall k todo, nth_error (todos st) k = Some todo ->
     nth_error (todos once) k =
       Some (if Z.eqb (id todo) i
             then with_completed todo (negb (completed todo))
             else todo)
     /\ nth_error (todos twice) k = Some todo)
  /\ todos twice = todos st
  /\ twice = st.
Proof.
  intros _ once twice. subst once twice.
  rewrite toggleComplete_twice. split; [|split; reflexivity].
  intros k todo Hk. split; [|exact Hk].
  rewrite toggleComplete_todos, nth_error_map, Hk. reflexivity.
Qed.

Lemma toggleComplete_involution_witness :
  todos (next (toggleComplete 1700000000000) two_tasks)
    = [call_bob; with_completed buy_milk true]
  /\ next (toggleComplete 1700000000000)
          (next (toggleComplete 1700000000000) two_tasks) = two_tasks.
Proof.
  destruct (@toggleComplete_involution two_tasks 1700000000000)
    as (_ & _ & H).
  - simpl. right; left; reflexivity.
  - cbv zeta. split; [reflexivity | exact H].
Defined.

(** C9. For an id that no task carries, [toggleComplete] stores the list
    unchanged, changes nothing else, and shows no notice at all. *)
Theorem toggleComplete_absent (st : State) (i : Z) :
  ~ In i (List.map id (todos st)) ->
  todos (next (toggleComplete i) st) = todos st
  /\ next (toggleComplete i) st = st
  /\ notices (toggleComplete i) st = [].
Proof.
  intros Habs.
  assert (E : todos (next (toggleComplete i) st) = todos st).
  { rewrite toggleComplete_todos. rewrite <- (map_id (todos st)) at 2.
    apply map_ext_in. intros todo Hin.
    destruct (Z.eqb_spec (id todo) i) as [Hi|]; [|reflexivity].
    exfalso. apply Habs. rewrite <- Hi. now apply in_map. }
  split; [exact E|]. split; [|reflexivity].
  revert E. run_handler toggleComplete. intros ->. now destruct st.
Qed.

Lemma toggleComplete_absent_witness :
  next (toggleComplete 42) two_tasks = two_tasks
  /\ notices (toggleComplete 42) two_tasks = [].
Proof.
  destruct (@toggleComplete_absent two_tasks 42) as (_ & H & N).
  - simpl. intros [H|[H|[]]]; discriminate.
  - split; [exact H | exact N].
Defined.

(** ** The visible list *)

Lemma filteredTodos_by_priority (st : State) (p : Priority) :
  filter st = filter_of p ->
  filteredTodos st =
  List.filter (fun todo =>
    jsstring_eqb (priority_lit (priority todo)) (filter_lit (filter_of p)))
    (todos st).
Proof.
  intros Hf. unfold filteredTodos. rewrite Hf.
  apply filter_ext. intros todo. now destruct p.
Qed.

(** C7. With the filter set to a priority [p], the visible list is the
    order-preserving subsequence of the task list made of exactly the
    tasks of priority [p]: it is a subsequence, all its tasks have
    priority [p], and every subsequence of the task list whose tasks all
    have priority [p] is a subsequence of it.  With the filter set to
    ['all'] the visible list is the task list.  Choosing a filter stores
    the task list unchanged. *)
Theorem filteredTodos_projection (st : State) :
  (forall p, filter st = filter_of p ->
     subseq (filteredTodos st) (todos st)
     /\ Forall (fun todo => priority todo = p) (filteredTodos st)
     /\ (forall todo, In todo (todos st) -> priority todo = p ->
           In todo (filteredTodos st))
     /\ (forall l, subseq l (todos st) ->
           Forall (fun todo => priority todo = p) l ->
           subseq l (filteredTodos st)))
  /\ (filter st = f_all -> filteredTodos st = todos st)
  /\ (forall f, todos (step st (ChangeFilter f)) = todos st).
Proof.
  split; [|split].
  - intros p Hf. rewrite (@filteredTodos_by_priority st p Hf).
    split; [apply filter_subseq|]. split; [|split].
    + eapply Forall_impl; [|apply filter_all_kept].
      intros todo. apply priority_matches_filter.
    + intros todo Hin Hp. apply filter_In. split; [assumption|].
      now apply priority_matches_filter.
    + intros l Hsub Hall. apply subseq_filter_greatest; [assumption|].
      eapply Forall_impl; [|exact Hall].
      intros todo. apply priority_matches_filter.
  - intros Hf. unfold filteredTodos. rewrite Hf. simpl.
    now apply filter_keeps_everything.
  - reflexivity.
Qed.

Lemma filteredTodos_projection_witness :
  Forall (fun todo => priority todo = low) (filteredTodos two_tasks)
  /\ subseq [call_bob] (filteredTodos two_tasks)
  /\ filteredTodos (step two_tasks (ChangeFilter f_all)) = [call_bob; buy_milk].
Proof.
  destruct (filteredTodos_projection two_tasks) as (Hp & _ & _).
  destruct (Hp low eq_refl) as (_ & Hall & _ & Hmax).
  split; [exact Hall|]. split.
  - apply Hmax.
    + apply subseq_keep, subseq_skip, subseq_nil.
    + repeat constructor.
  - destruct (filteredTodos_projection (step two_tasks (ChangeFilter f_all)))
      as (_ & Hall' & _).
    exact (Hall' eq_refl).
Defined.

(** ** Ids along a run *)

Lemma reachable_fold (evs : list Event) (st : State) :
  reachable st -> reachable (fold_left step evs st).
Proof.
  revert st. induction evs as [|ev evs IH]; simpl; intros st H.
  - exact H.
  - apply IH. now constructor.
Qed.

Lemma reachable_run_events (evs : list Event) : reachable (run_events evs).
Proof. apply reachable_fold. constructor. Qed.

Lemma unique_ids_filter (keep : Todo -> bool) (l : list Todo) :
  unique_ids l -> unique_ids (List.filter keep l).
Proof.
  unfold unique_ids. induction l as [|x l IH]; simpl; intros H; [exact H|].
  inversion H as [|? ? Hx Hl]; subst.
  destruct (keep x); simpl; auto.
  constructor; auto.
  intros Hin. apply Hx. apply in_map_iff in Hin as (y & Hy & Hin).
  apply filter_In in Hin as [Hin _]. rewrite <- Hy. now apply in_map.
Qed.

Lemma unique_ids_map (g : Todo -> Todo) (l : list Todo) :
  (forall todo, id (g todo) = id todo) ->
  unique_ids l -> unique_ids (List.map g l).
Proof.
  unfold unique_ids. intros Hg H. rewrite map_map.
  now rewrite (map_ext _ id Hg).
Qed.

(** Every handler but [addTodo] keeps the ids pairwise distinct. *)
Lemma step_keeps_unique_ids (st : State) (ev : Event) :
  (forall now created, ev <> Add now created) ->
  unique_ids (todos st) -> unique_ids (todos (step st ev)).
Proof.
  intros Hev H. destruct ev; try exact H.
  - now elim (Hev now created).
  - apply unique_ids_filter, H.
  - unfold step; simpl. run_handler saveEdit.
    destruct (truthy (trim (editText st))); simpl; [|exact H].
    apply unique_ids_map; [|exact H].
    intros todo. now destruct (id_is (id todo) (editingId st)).
  - apply unique_ids_map; [|exact H].
    intros todo. now destruct (Z.eqb (id todo) i).
Qed.

(** As long as each [Date.now()] read by [addTodo] differs from the ids
    in the list, the ids stay pairwise distinct. *)
Lemma fresh_clock_unique_ids (st : State) :
  reachable_fresh st -> unique_ids (todos st).
Proof.
  induction 1 as [|st now created _ IH Hfresh|st ev _ IH Hev].
  - constructor.
  - unfold step; simpl. run_handler addTodo.
    destruct (truthy (trim (newTodo st))); simpl; [|exact IH].
    now constructor.
  - now apply step_keeps_unique_ids.
Qed.

(** C8. Two tasks added while [Date.now()] returns the same value get
    the same id: a state reachable from the empty list in which the ids
    are not pairwise distinct. *)
Theorem same_tick_ids_collide :
  reachable (run_events same_tick)
  /\ List.map id (todos (run_events same_tick))
       = [1700000000000; 1700000000000]
  /\ List.map text (todos (run_events same_tick))
       = [lit "Call Bob"; lit "Buy milk"]
  /\ ~ unique_ids (todos (run_events same_tick)).
Proof.
  split; [apply reachable_run_events|].
  split; [reflexivity|]. split; [reflexivity|].
  intros H. inversion H as [|? ? Hx _]; subst.
  apply Hx. now left.
Qed.

(** ** What [trim] leaves *)

Lemma trimStart_nil_iff (s : jsstring) : trimStart s = [] <-> blank s = true.
Proof.
  induction s as [|c s IH]; simpl; [tauto|].
  destruct (is_white_space c); simpl; [exact IH|].
  split; discriminate.
Qed.

Lemma trimStart_clean (s : jsstring) : starts_clean (trimStart s).
Proof.
  induction s as [|c s IH]; simpl; [exact I|].
  destruct (is_white_space c) eqn:E; simpl; assumption.
Qed.

Lemma trimStart_fixed (s : jsstring) : starts_clean s -> trimStart s = s.
Proof. destruct s as [|c s]; simpl; [reflexivity|]. now intros ->. Qed.

(** [trimStart] drops a prefix of white space and nothing else. *)
Lemma trimStart_split (s : jsstring) :
  exists p, s = p ++ trimStart s /\ blank p = true.
Proof.
  induction s as [|c s (p & Hs & Hp)]; simpl.
  - now exists [].
  - destruct (is_white_space c) eqn:E.
    + exists (c :: p). simpl. rewrite E, Hp. split; [congruence|reflexivity].
    + now exists [].
Qed.

Lemma blank_rev (s : jsstring) : blank (rev s) = blank s.
Proof.
  unfold blank. induction s as [|c s IH]; simpl; [reflexivity|].
  rewrite forallb_app, IH. simpl. rewrite andb_true_r. apply andb_comm.
Qed.

Lemma blank_clean_nil (s : jsstring) :
  starts_clean s -> blank s = true -> s = [].
Proof.
  destruct s as [|c s]; simpl; [reflexivity|].
  intros ->. discriminate.
Qed.

Lemma trim_nil_iff (s : jsstring) : trim s = [] <-> blank s = true.
Proof.
  unfold trim, trimEnd. split.
  - intros H. apply (f_equal (@rev N)) in H. rewrite rev_involutive in H.
    simpl in H. apply trimStart_nil_iff in H. rewrite blank_rev in H.
    apply trimStart_nil_iff, blank_clean_nil; [apply trimStart_clean|exact H].
  - intros H. apply trimStart_nil_iff in H. rewrite H. reflexivity.
Qed.

Lemma trim_well_trimmed (s : jsstring) :
  trim s <> [] -> well_trimmed (trim s).
Proof.
  intros Hne. split; [exact Hne|]. revert Hne. unfold trim, trimEnd.
  destruct (trimStart_split (rev (trimStart s))) as (p & Hp & _).
  set (u := trimStart (rev (trimStart s))) in *.
  intros Hne. split.
  - apply (f_equal (@rev N)) in Hp.
    rewrite rev_involutive, rev_app_distr in Hp.
    pose proof (trimStart_clean s) as Hc. rewrite Hp in Hc.
    destruct (rev u) as [|c r]; [exact I | exact Hc].
  - rewrite rev_involutive. apply trimStart_clean.
Qed.

Lemma trim_fixed (s : jsstring) :
  starts_clean s -> starts_clean (rev s) -> trim s = s.
Proof.
  intros H1 H2. unfold trim, trimEnd.
  rewrite (trimStart_fixed _ H1), (trimStart_fixed _ H2).
  apply rev_involutive.
Qed.

Lemma trim_idempotent (s : jsstring) : trim (trim s) = trim s.
Proof.
  destruct (trim s) as [|c r] eqn:E; [reflexivity|]. rewrite <- E.
  destruct (@trim_well_trimmed s) as (_ & H1 & H2); [congruence|].
  now apply trim_fixed.
Qed.

(** ** The text of stored tasks *)

Lemma step_todos_cases (st : State) (ev : Event) :
  todos (step st ev) = todos st
  \/ (exists now created,
        ev = Add now created /\ trim (newTodo st) <> []
        /\ todos (step st ev) =
             mkTodo now (trim (newTodo st)) (newPriority st) false created
             :: todos st)
  \/ (exists i,
        ev = Delete i
        /\ todos (step st ev) =
             List.filter (fun todo => negb (Z.eqb (id todo) i)) (todos st))
  \/ (ev = SaveEdit /\ trim (editText st) <> []
      /\ todos (step st ev) =
           List.map (fun todo => if id_is (id todo) (editingId st)
                                 then with_text todo (trim (editText st))
                                 else todo) (todos st))
  \/ (exists i,
        ev = ToggleComplete i
        /\ todos (step st ev) =
             List.map (fun todo =>
                         if Z.eqb (id todo) i
                         then with_completed todo (negb (completed todo))
                         else todo) (todos st)).
Proof.
  destruct ev; try (left; reflexivity).
  - unfold step; simpl. run_handler addTodo.
    by_draft (trim (newTodo st)); [|now left].
    right; left. now exists now, created.
  - right; right; left. now exists i.
  - unfold step; simpl. run_handler saveEdit.
    by_draft (trim (editText st)); [|now left].
    right; right; right; left. auto.
  - right; right; right; right. now exists i.
Qed.

(** X1. In every state reachable from the initial one, by any events with
    any arguments, the text of every task is non-empty and neither starts
    nor ends with white space. *)
Theorem stored_text_well_trimmed (st : State) :
  reachable st ->
  Forall (fun todo => well_trimmed (text todo)) (todos st).
Proof.
  induction 1 as [|st ev _ IH]; [constructor|].
  destruct (step_todos_cases st ev)
    as [E|[(now & created & _ & Hne & E)|[(i & _ & E)|[(_ & Hne & E)|(i & _ & E)]]]];
    rewrite E; clear E.
  - exact IH.
  - constructor; [|exact IH]. simpl. now apply trim_well_trimmed.
  - rewrite Forall_forall in *. intros todo Hin.
    apply filter_In in Hin as [Hin _]. now apply IH.
  - rewrite Forall_forall in *. intros todo Hin.
    apply in_map_iff in Hin as (t & <- & Hin).
    destruct (id_is (id t) (editingId st)); [|now apply IH].
    simpl. now apply trim_well_trimmed.
  - rewrite Forall_forall in *. intros todo Hin.
    apply in_map_iff in Hin as (t & <- & Hin).
    destruct (Z.eqb (id t) i); simpl; now apply IH.
Qed.

Lemma stored_text_well_trimmed_witness :
  Forall (fun todo => well_trimmed (text todo))
    (todos (run_events [ChangeNewTodo (lit "  Pay rent "); Add 7 7])).
Proof.
  apply stored_text_well_trimmed. apply reachable_run_events.
Defined.

Lemma truthy_trim (s : jsstring) : truthy (trim s) = negb (blank s).
Proof.
  destruct (blank s) eqn:Hb; simpl.
  - apply truthy_false_iff, trim_nil_iff, Hb.
  - apply truthy_true_iff. intros H. apply trim_nil_iff in H. congruence.
Qed.

(** X2. [addTodo] turns the draft down exactly when every code unit of
    the new-task draft is white space, and [saveEdit] exactly when every
    code unit of the edit draft is; a draft with any other code unit in it
    is accepted: the task is added, respectively the edit is saved with
    an ordinary notice. *)
Theorem rejected_iff_blank (st : State) (now created : Z) :
  (blank (newTodo st) = true <->
     Exists (fun t => variant t = destructive)
            (notices (addTodo now created) st))
  /\ (blank (newTodo st) = false <->
        List.length (todos (next (addTodo now created) st))
          = S (List.length (todos st)))
  /\ (blank (editText st) = true <->
        Exists (fun t => variant t = destructive) (notices saveEdit st))
  /\ (blank (editText st) = false <->
        Forall (fun t => variant t = normal) (notices saveEdit st)).
Proof.
  unfold next, notices, run, commit, addTodo, saveEdit.
  rewrite !truthy_trim, !negb_involutive.
  destruct (blank (newTodo st)), (blank (editText st)); simpl;
    repeat split; intros H; try reflexivity; try discriminate; try lia;
    try (now left); try (repeat constructor);
    try (inversion H as [? ? Hv|? ? Hv]; [discriminate | inversion Hv]);
    try (inversion H as [|? ? Hv _]; discriminate).
Qed.

Lemma rejected_iff_blank_witness :
  Exists (fun t => variant t = destructive)
         (notices (addTodo 5 5) (mkState [] (lit "   ") low None [] f_all))
  /\ Forall (fun t => variant t = normal) (notices saveEdit two_tasks).
Proof.
  split.
  - apply (rejected_iff_blank
             (mkState [] (lit "   ") low None [] f_all) 5 5). reflexivity.
  - apply (rejected_iff_blank two_tasks 5 5). reflexivity.
Defined.

(** ** Notices and the state *)

(** X3. A handler shows at most one toast, and a destructive toast only
    together with an unchanged state: it comes from [addTodo] or
    [saveEdit] turning down a blank draft, and the state after the event
    is the state before it. *)
Theorem rejection_changes_nothing (st : State) (ev : Event) :
  (List.length (notices (handler ev) st) <= 1)%nat
  /\ (Exists (fun t => variant t = destructive) (notices (handler ev) st) ->
        step st ev = st
        /\ ((exists now created,
               ev = Add now created /\ blank (newTodo st) = true)
            \/ (ev = SaveEdit /\ blank (editText st) = true))).
Proof.
  assert (none : forall l,
             (forall t, In t l -> variant t = normal) ->
             ~ Exists (fun t => variant t = destructive) l).
  { intros l Hl H. apply Exists_exists in H as (t & Hin & Hv).
    rewrite (Hl t Hin) in Hv. discriminate. }
  destruct ev; unfold step, next, notices, run, commit; simpl.
  all: try (split; [simpl; lia |];
            intros H; exfalso; revert H; apply none; simpl;
            intros t Hin; intuition (subst; reflexivity)).
  - unfold addTodo. rewrite truthy_trim, negb_involutive.
    destruct (blank (newTodo st)); cbn.
    + split; [lia|]. intros _. split; [reflexivity|].
      left. now exists now, created.
    + split; [lia|]. intros H. exfalso. revert H. apply none. simpl.
      intros t Hin. intuition (subst; reflexivity).
  - unfold saveEdit. rewrite truthy_trim, negb_involutive.
    destruct (blank (editText st)); cbn.
    + split; [lia|]. intros _. split; [reflexivity|]. now right.
    + split; [lia|]. intros H. exfalso. revert H. apply none. simpl.
      intros t Hin. intuition (subst; reflexivity).
Qed.

Lemma rejection_changes_nothing_witness :
  step (mkState [buy_milk] (lit " ") low None [] f_all) (Add 5 5)
  = mkState [buy_milk] (lit " ") low None [] f_all.
Proof.
  apply (rejection_changes_nothing
           (mkState [buy_milk] (lit " ") low None [] f_all) (Add 5 5)).
  now left.
Defined.

(** ** Where tasks come from *)



(** ** Deleting, again *)

Lemma filter_map_commute (A : Type) (keep : A -> bool) (g : A -> A)
    (l : list A) :
  (forall x, keep (g x) = keep x) ->
  List.filter keep (List.map g l) = List.map g (List.filter keep l).
Proof.
  intros Hg. induction l as [|x l IH]; simpl; [reflexivity|].
  rewrite Hg. destruct (keep x); simpl; now rewrite IH.
Qed.

Lemma filter_twice (A : Type) (keep : A -> bool) (l : list A) :
  List.filter keep (List.filter keep l) = List.filter keep l.
Proof.
  apply filter_keeps_everything. intros x Hx. now apply filter_In in Hx.
Qed.

Lemma filter_length_split (A : Type) (keep : A -> bool) (l : list A) :
  List.length l =
  (List.length (List.filter keep l)
   + List.length (List.filter (fun x => negb (keep x)) l))%nat.
Proof.
  induction l as [|x l IH]; simpl; [reflexivity|].
  destruct (keep x); simpl; lia.
Qed.

(** X5. [deleteTodo] removes every task that carries the id, however
    many there are: afterwards no task has the id, the tasks left are
    exactly those with another id, in their old order, the list is
    shorter by the number of carriers, and deleting the same id again
    changes nothing. *)
Theorem deleteTodo_removes_all (st : State) (i : Z) :
  let st' := next (deleteTodo i) st in
  ~ In i (List.map id (todos st'))
  /\ (forall todo, In todo (todos st') <-> In todo (todos st) /\ id todo <> i)
  /\ subseq (todos st') (todos st)
  /\ List.length (todos st) =
       (List.length (todos st') + occurrences i (todos st))%nat
  /\ next (deleteTodo i) st' = st'.
Proof.
  intros st'. subst st'. rewrite deleteTodo_todos. repeat split.
  - intros Hin. apply in_map_iff in Hin as (t & Ht & Hin).
    apply filter_In in Hin as [_ Hin].
    apply negb_true_iff, Z.eqb_neq in Hin. contradiction.
  - now apply filter_In in H.
  - apply filter_In in H as [_ H]. now apply negb_true_iff, Z.eqb_neq in H.
  - intros [Hin Hne]. apply filter_In. split; [assumption|].
    now apply negb_true_iff, Z.eqb_neq.
  - apply filter_subseq.
  - rewrite occurrences_as_dropped. apply filter_length_split.
  - run_handler deleteTodo. now rewrite filter_twice.
Qed.

(** X6. Adding a task while [Date.now()] returns a value no task carries
    and deleting that id straight away gives back the old task list. *)
Theorem add_then_delete (st : State) (now created : Z) :
  trim (newTodo st) <> [] ->
  ~ In now (List.map id (todos st)) ->
  todos (step (step st (Add now created)) (Delete now)) = todos st.
Proof.
  intros Hne Hfresh. unfold step.
  change (handler (Delete now)) with (deleteTodo now).
  rewrite deleteTodo_todos. simpl handler. run_handler addTodo. by_draft (trim (newTodo st)).
  rewrite Z.eqb_refl. simpl.
  apply filter_keeps_everything. intros todo Hin.
  apply negb_true_iff, Z.eqb_neq. intros Hid. apply Hfresh.
  rewrite <- Hid. now apply in_map.
Qed.

Lemma add_then_delete_witness :
  todos (step (step two_tasks (Add 42 43)) (Delete 42)) = [call_bob; buy_milk].
Proof.
  apply (@add_then_delete two_tasks 42 43).
  - vm_compute; discriminate.
  - simpl. intros [H|[H|[]]]; discriminate.
Defined.

(** X7. Toggling and deleting commute, for any two ids: the state after
    [toggleComplete j] then [deleteTodo i] is the state after
    [deleteTodo i] then [toggleComplete j]; so do two toggles. *)
Theorem toggle_delete_commute (st : State) (i j : Z) :
  next (deleteTodo i) (next (toggleComplete j) st)
    = next (toggleComplete j) (next (deleteTodo i) st)
  /\ next (toggleComplete i) (next (toggleComplete j) st)
       = next (toggleComplete j) (next (toggleComplete i) st).
Proof.
  split.
  - run_handler deleteTodo. run_handler toggleComplete. f_equal.
    apply filter_map_commute. intros todo.
    now destruct (Z.eqb (id todo) j).
  - run_handler toggleComplete. f_equal. rewrite !map_map.
    apply map_ext. intros todo.
    destruct (Z.eqb (id todo) i) eqn:Ei, (Z.eqb (id todo) j) eqn:Ej;
      simpl; rewrite ?Ei, ?Ej; reflexivity.
Qed.

(** ** The edit cycle *)

Lemma with_text_same (todo : Todo) : with_text todo (text todo) = todo.
Proof. now destruct todo. Qed.

(** With pairwise distinct ids, a map that rewrites the tasks carrying
    the id of [todo] rewrites [todo] alone. *)
Lemma map_at_unique_id (g : Todo -> Todo) (l1 l2 : list Todo) (todo : Todo) :
  unique_ids (l1 ++ todo :: l2) ->
  List.map (fun t => if Z.eqb (id t) (id todo) then g t else t)
           (l1 ++ todo :: l2)
  = l1 ++ g todo :: l2.
Proof.
  unfold unique_ids. intros Hnd. rewrite map_app in Hnd. simpl in Hnd.
  apply NoDup_remove_2 in Hnd. rewrite map_app. simpl.
  assert (Hother : forall l,
             (forall t, In t l -> In (id t) (List.map id l1 ++ List.map id l2)) ->
             List.map (fun t => if Z.eqb (id t) (id todo) then g t else t) l
             = l).
  { intros l Hl. rewrite <- (map_id l) at 2. apply map_ext_in.
    intros t Hin. destruct (Z.eqb_spec (id t) (id todo)) as [E|]; auto.
    exfalso. apply Hnd. rewrite <- E. now apply Hl. }
  rewrite Z.eqb_refl. f_equal; [|f_equal]; apply Hother; intros t Hin;
    apply in_or_app; [left|right]; now apply in_map.
Qed.

Lemma startEdit_then (st : State) (todo : Todo) :
  next (startEdit todo) st =
  mkState (todos st) (newTodo st) (newPriority st) (Some (id todo))
          (text todo) (filter st).
Proof. reflexivity. Qed.

(** X8. With pairwise distinct ids, editing the task [todo] that stands
    between [l1] and [l2] (edit button, typing [s], Save) with a draft
    that is not blank stores [l1], then [todo] with text [trim s], then
    [l2], and leaves edit mode. *)
Theorem edit_cycle (st : State) (l1 l2 : list Todo) (todo : Todo)
    (s : jsstring) :
  todos st = l1 ++ todo :: l2 -> unique_ids (todos st) -> trim s <> [] ->
  let st' := step (step (step st (StartEdit todo)) (ChangeEditText s))
                  SaveEdit in
  todos st' = l1 ++ with_text todo (trim s) :: l2
  /\ editingId st' = None /\ editText st' = []
  /\ newTodo st' = newTodo st /\ newPriority st' = newPriority st
  /\ filter st' = filter st.
Proof.
  intros Hl Hu Hne. unfold step; simpl handler. rewrite startEdit_then.
  run_handler saveEdit. by_draft (trim s). repeat split.
  rewrite Hl in *. now apply map_at_unique_id.
Qed.

Lemma edit_cycle_witness :
  todos (step (step (step two_tasks (StartEdit buy_milk))
                    (ChangeEditText (lit " Buy oat milk ")))
              SaveEdit)
  = [call_bob] ++ with_text buy_milk (trim (lit " Buy oat milk ")) :: [].
Proof.
  apply (@edit_cycle two_tasks [call_bob] [] buy_milk (lit " Buy oat milk ")).
  - reflexivity.
  - repeat constructor; simpl; intuition discriminate.
  - vm_compute; discriminate.
Defined.

(** X9. With pairwise distinct ids, opening a stored task whose text is
    well trimmed in the editor and saving it untouched gives back the
    task list as it was; the "Task Updated" notice is shown all the same. *)
Theorem open_and_save (st : State) (todo : Todo) :
  In todo (todos st) -> unique_ids (todos st) ->
  well_trimmed (text todo) ->
  let opened := step st (StartEdit todo) in
  todos (step opened SaveEdit) = todos st
  /\ editingId (step opened SaveEdit) = None
  /\ editText (step opened SaveEdit) = []
  /\ notices saveEdit opened =
       [{| title := lit "Task Updated";
           description := lit "Your task has been updated successfully!";
           variant := normal |}].
Proof.
  intros Hin Hu (Hne & Hc1 & Hc2). unfold step; simpl handler.
  rewrite startEdit_then. run_handler saveEdit.
  rewrite (trim_fixed _ Hc1 Hc2). by_draft (text todo). repeat split.
  apply in_split in Hin as (l1 & l2 & Hl). rewrite Hl in *.
  rewrite map_at_unique_id by assumption. now rewrite with_text_same.
Qed.

Lemma open_and_save_witness :
  todos (step (step two_tasks (StartEdit call_bob)) SaveEdit)
  = [call_bob; buy_milk].
Proof.
  apply (@open_and_save two_tasks call_bob).
  - now left.
  - repeat constructor; simpl; intuition discriminate.
  - vm_compute. repeat split; discriminate.
Defined.



(** ** Keys *)

Lemma jsstring_eqb_neq (a b : jsstring) : a <> b -> jsstring_eqb a b = false.
Proof.
  intros H. destruct (jsstring_eqb a b) eqn:E; [|reflexivity].
  now apply jsstring_eqb_eq in E.
Qed.



(** ** Badge colours *)

(** X12. [getPriorityColor] gives the three priorities three different
    class strings, none of them the fall-back, and gives the fall-back to
    every other string. *)
Theorem getPriorityColor_cases :
  (forall p q, getPriorityColor (priority_lit p)
               = getPriorityColor (priority_lit q) -> p = q)
  /\ (forall p, getPriorityColor (priority_lit p)
                <> lit "bg-muted text-muted-foreground")
  /\ (forall s, (forall p, s <> priority_lit p) ->
                getPriorityColor s = lit "bg-muted text-muted-foreground").
Proof.
  repeat split.
  - intros [] []; vm_compute; congruence.
  - intros []; vm_compute; discriminate.
  - intros s Hs. unfold getPriorityColor.
    pose proof (jsstring_eqb_neq (Hs high)) as Hh.
    pose proof (jsstring_eqb_neq (Hs medium)) as Hm.
    pose proof (jsstring_eqb_neq (Hs low)) as Hl.
    change (priority_lit high) with (lit "high") in Hh.
    change (priority_lit medium) with (lit "medium") in Hm.
    change (priority_lit low) with (lit "low") in Hl.
    now rewrite Hh, Hm, Hl.
Qed.

Lemma getPriorityColor_cases_witness :
  getPriorityColor (lit "urgent") = lit "bg-muted text-muted-foreground".
Proof.
  destruct getPriorityColor_cases as (_ & _ & H).
  apply H. intros []; discriminate.
Defined.

(** ** The rendered list *)

Lemma filteredTodos_all (st : State) :
  filter st = f_all -> filteredTodos st = todos st.
Proof.
  intros Hf. unfold filteredTodos. rewrite Hf. simpl.
  now apply filter_keeps_everything.
Qed.

Lemma filteredTodos_of_priority (st : State) (p : Priority) :
  filter st = filter_of p -> filteredTodos st = of_priority p (todos st).
Proof.
  intros Hf. rewrite (@filteredTodos_by_priority st p Hf).
  unfold of_priority. apply filter_ext. intros todo. now destruct p.
Qed.

Lemma in_of_priority (p : Priority) (l : list Todo) (todo : Todo) :
  In todo (of_priority p l) <-> In todo l /\ priority todo = p.
Proof.
  unfold of_priority. rewrite filter_In.
  replace (priority_lit p) with (filter_lit (filter_of p))
    by now destruct p.
  now rewrite priority_matches_filter.
Qed.

Lemma of_priority_cons (p : Priority) (todo : Todo) (l : list Todo) :
  of_priority p (todo :: l) =
  if jsstring_eqb (priority_lit (priority todo)) (priority_lit p)
  then todo :: of_priority p l else of_priority p l.
Proof. reflexivity. Qed.

(** X13. The three priority views split the task list: with the filter
    on a priority the visible list is the tasks of that priority, and the
    numbers of high, medium and low tasks add up to the length of the
    list, which is what the filter ['all'] shows. *)
Theorem views_partition (st : State) :
  (forall p, filter st = filter_of p ->
     filteredTodos st = of_priority p (todos st))
  /\ (filter st = f_all ->
        List.length (filteredTodos st) = List.length (todos st))
  /\ List.length (todos st) =
       (List.length (of_priority high (todos st))
        + List.length (of_priority medium (todos st))
        + List.length (of_priority low (todos st)))%nat.
Proof.
  split; [apply filteredTodos_of_priority|]. split.
  - intros Hf. now rewrite filteredTodos_all.
  - induction (todos st) as [|todo l IH]; [reflexivity|].
    rewrite !of_priority_cons.
    destruct (priority todo);
      repeat match goal with
             | |- context [jsstring_eqb ?a ?b] =>
                 let v := eval vm_compute in (jsstring_eqb a b) in
                 change (jsstring_eqb a b) with v
             end;
      cbn [List.length]; lia.
Qed.

Lemma views_partition_witness :
  filteredTodos two_tasks = of_priority low (todos two_tasks)
  /\ filteredTodos two_tasks = [call_bob].
Proof.
  destruct (views_partition two_tasks) as (H & _).
  split; [apply H; reflexivity | reflexivity].
Defined.

Lemma length_zero_no_member (A : Type) (l : list A) :
  Nat.eqb (List.length l) 0 = false <-> exists x, In x l.
Proof.
  destruct l as [|x l]; simpl; split; try discriminate.
  - intros (x & []).
  - intros _. exists x. now left.
  - reflexivity.
Qed.

(** X14. The placeholder card replaces the rows exactly when no task is
    visible.  Under the filter ['all'] that is when the list is empty, and
    the card reads "No tasks yet. Add your first task above!"; under a
    priority filter it is when no task has that priority, and the card
    names the priority. *)
Theorem emptyMessage_shown (st : State) :
  (emptyMessage st = None <-> exists todo, In todo (filteredTodos st))
  /\ (filter st = f_all ->
        (emptyMessage st
           = Some (lit "No tasks yet. Add your first task above!")
         <-> todos st = [])
        /\ (emptyMessage st = None <-> todos st <> []))
  /\ (forall p, filter st = filter_of p ->
        (emptyMessage st
           = Some (lit "No " ++ priority_lit p ++ lit " priority tasks found.")
         <-> forall todo, In todo (todos st) -> priority todo <> p)
        /\ (emptyMessage st = None
            <-> exists todo, In todo (todos st) /\ priority todo = p)).
Proof.
  assert (Hnone : emptyMessage st = None
                  <-> exists todo, In todo (filteredTodos st)).
  { rewrite <- length_zero_no_member. unfold emptyMessage.
    destruct (Nat.eqb (List.length (filteredTodos st)) 0);
      split; congruence. }
  split; [exact Hnone|]. split.
  - intros Hf. rewrite Hnone. clear Hnone.
    unfold emptyMessage. rewrite (@filteredTodos_all st Hf), Hf. simpl.
    destruct (todos st) as [|todo l]; simpl; split; split;
      try congruence; try discriminate.
    + intros (x & []).
    + intros _. exists todo. now left.
  - intros p Hf. rewrite Hnone. clear Hnone. unfold emptyMessage.
    rewrite (@filteredTodos_of_priority st p Hf), Hf.
    replace (jsstring_eqb (filter_lit (filter_of p)) (lit "all"))
      with false by now destruct p.
    replace (filter_lit (filter_of p)) with (priority_lit p)
      by now destruct p.
    split.
    + destruct (of_priority p (todos st)) as [|x l] eqn:E; simpl.
      * split; [|reflexivity]. intros _ todo Hin Hp.
        assert (H : In todo (of_priority p (todos st)))
          by now apply in_of_priority.
        now rewrite E in H.
      * split; [discriminate|]. intros H. exfalso.
        assert (Hx : In x (of_priority p (todos st)))
          by (rewrite E; now left).
        apply in_of_priority in Hx as [Hx Hp]. now apply (H x).
    + split; intros (todo & H); exists todo; now apply in_of_priority.
Qed.

Lemma emptyMessage_shown_witness :
  emptyMessage initial = Some (lit "No tasks yet. Add your first task above!")
  /\ emptyMessage (step two_tasks (ChangeFilter f_medium))
     = Some (lit "No medium priority tasks found.").
Proof.
  split.
  - apply (emptyMessage_shown initial); reflexivity.
  - destruct (emptyMessage_shown (step two_tasks (ChangeFilter f_medium)))
      as (_ & _ & H).
    apply (H medium eq_refl).
    intros todo [<-|[<-|[]]]; discriminate.
Defined.

Lemma single_carrier (e : Z) (l : list Todo) :
  unique_ids l ->
  (List.length (List.filter (fun todo => Z.eqb e (id todo)) l) <= 1)%nat.
Proof.
  unfold unique_ids. induction l as [|x l IH]; simpl; intros Hnd; [lia|].
  inversion Hnd as [|? ? Hx Hl]; subst.
  destruct (Z.eqb_spec e (id x)) as [->|]; simpl; [|now apply IH].
  rewrite (proj2 (length_zero_iff_nil _)); [lia|].
  destruct (List.filter _ l) as [|y r] eqn:E; [reflexivity|].
  exfalso. apply Hx.
  assert (Hy : In y (List.filter (fun todo => Z.eqb (id x) (id todo)) l))
    by (rewrite E; now left).
  apply filter_In in Hy as [Hy Hid]. apply Z.eqb_eq in Hid.
  rewrite Hid. now apply in_map.
Qed.

(** X15. With pairwise distinct ids at most one rendered row is in edit
    mode, whatever the filter; with no editing id none is. *)
Theorem one_row_in_edit (st : State) :
  unique_ids (todos st) ->
  (List.length (List.filter (showsEditInput st) (filteredTodos st)) <= 1)%nat
  /\ (editingId st = None ->
        List.filter (showsEditInput st) (filteredTodos st) = []).
Proof.
  intros Hu. unfold showsEditInput. destruct (editingId st) as [e|].
  - split; [|discriminate].
    apply single_carrier. now apply unique_ids_filter.
  - assert (E : List.filter (fun _ : Todo => false) (filteredTodos st) = []).
    { induction (filteredTodos st); simpl; auto. }
    rewrite E. simpl. split; [lia | reflexivity].
Qed.

Lemma one_row_in_edit_witness :
  (List.length (List.filter (showsEditInput two_tasks)
                            (filteredTodos two_tasks)) <= 1)%nat.
Proof.
  apply (@one_row_in_edit two_tasks).
  repeat constructor; simpl; intuition discriminate.
Defined.

(** ** What stays visible *)

Lemma filteredTodos_map (st st' : State) (g : Todo -> Todo) :
  filter st' = filter st ->
  todos st' = List.map g (todos st) ->
  (forall todo, priority (g todo) = priority todo) ->
  filteredTodos st' = List.map g (filteredTodos st).
Proof.
  intros Hf Hl Hg. unfold filteredTodos. rewrite Hf, Hl.
  apply filter_map_commute. intros todo. now rewrite Hg.
Qed.

(** X16. Only adding, deleting and changing the filter change which
    tasks are shown: after any other event the visible list has the same
    ids, priorities and creation times in the same order. *)
Theorem visible_rows_stable (st : State) (ev : Event) :
  (forall now created, ev <> Add now created) ->
  (forall i, ev <> Delete i) ->
  (forall f, ev <> ChangeFilter f) ->
  List.map id (filteredTodos (step st ev)) = List.map id (filteredTodos st)
  /\ List.map priority (filteredTodos (step st ev))
       = List.map priority (filteredTodos st)
  /\ List.map createdAt (filteredTodos (step st ev))
       = List.map createdAt (filteredTodos st).
Proof.
  intros Ha Hd Hf.
  assert (Hmap : forall g : Todo -> Todo,
             filter (step st ev) = filter st ->
             todos (step st ev) = List.map g (todos st) ->
             (forall todo, id (g todo) = id todo
                           /\ priority (g todo) = priority todo
                           /\ createdAt (g todo) = createdAt todo) ->
             List.map id (filteredTodos (step st ev))
               = List.map id (filteredTodos st)
             /\ List.map priority (filteredTodos (step st ev))
                  = List.map priority (filteredTodos st)
             /\ List.map createdAt (filteredTodos (step st ev))
                  = List.map createdAt (filteredTodos st)).
  { intros g Hfl Hl Hg.
    rewrite (@filteredTodos_map st (step st ev) g Hfl Hl)
      by (intros; apply Hg).
    rewrite !map_map. repeat split; apply map_ext; intros; apply Hg. }
  destruct ev; try (repeat split; reflexivity).
  - now elim (Ha now created).
  - now elim (Hd i).
  - unfold step in *; simpl handler in *.
    destruct (truthy (trim (editText st))) eqn:E.
    + apply (Hmap (fun todo => if id_is (id todo) (editingId st)
                               then with_text todo (trim (editText st))
                               else todo)).
      * run_handler saveEdit. now rewrite E.
      * run_handler saveEdit. now rewrite E.
      * intros todo. now destruct (id_is (id todo) (editingId st)).
    + run_handler saveEdit. rewrite E. simpl. repeat split.
  - apply (Hmap (fun todo => if Z.eqb (id todo) i
                             then with_completed todo (negb (completed todo))
                             else todo)); try reflexivity.
    intros todo. now destruct (Z.eqb (id todo) i).
  - now elim (Hf f).
Qed.

Lemma visible_rows_stable_witness :
  List.map id (filteredTodos (step two_tasks (ToggleComplete 1700000005000)))
  = [1700000005000].
Proof.
  destruct (@visible_rows_stable two_tasks (ToggleComplete 1700000005000))
    as (H & _); try discriminate.
  rewrite H. reflexivity.
Defined.

(** ** Runs through the markup *)

(** X17. Along events the rendered markup can deliver, the edit draft is
    empty whenever no task is being edited: the edit input exists only in
    the row of the task under edit, and [saveEdit] and Escape empty the
    draft when they leave edit mode. *)
Theorem no_draft_outside_edit (st : State) :
  reachable_ui st -> editingId st = None -> editText st = [].
Proof.
  induction 1 as [|st ev _ IH Hen]; [reflexivity|].
  destruct ev; simpl in Hen; try exact IH.
  - unfold step; simpl handler. run_handler addTodo.
    destruct (truthy (trim (newTodo st))); exact IH.
  - discriminate.
  - destruct Hen as (todo & _ & Hshow). unfold showsEditInput in Hshow.
    intros Hnone. change (editingId st = None) in Hnone.
    rewrite Hnone in Hshow. discriminate.
  - unfold step; simpl handler. run_handler saveEdit.
    destruct (truthy (trim (editText st))); [reflexivity | exact IH].
  - reflexivity.
Qed.

Lemma no_draft_outside_edit_witness :
  editText (step (step (step (step initial (ChangeNewTodo (lit "Buy milk")))
                             (Add 7 7))
                       (StartEdit (mkTodo 7 (lit "Buy milk") medium false 7)))
                 CancelEdit) = [].
Proof.
  apply no_draft_outside_edit; [|reflexivity].
  apply ui_step; [apply ui_step; [apply ui_step; [apply ui_step |] |] |].
  - apply ui_initial.
  - exact I.
  - exact I.
  - simpl. split; [now left | split; reflexivity].
  - simpl. exists (mkTodo 7 (lit "Buy milk") medium false 7).
    split; [now left | reflexivity].
Defined.

(** X18. As long as every [Date.now()] that [addTodo] reads differs from
    the ids in the list at that moment, the ids of the list are pairwise
    distinct after any sequence of events. *)
Theorem fresh_clock_keeps_ids_unique (st : State) :
  reachable_fresh st -> unique_ids (todos st).
Proof. apply fresh_clock_unique_ids. Qed.

Lemma fresh_clock_keeps_ids_unique_witness :
  unique_ids
    (todos (step (step (step (step initial (ChangeNewTodo (lit "Buy milk")))
                             (Add 7 7))
                       (ChangeNewTodo (lit "Call Bob")))
                 (Add 8 8))).
Proof.
  apply fresh_clock_keeps_ids_unique.
  apply fresh_add; [apply fresh_other; [apply fresh_add;
    [apply fresh_other; [apply fresh_initial|]|]|]|].
  - discriminate.
  - simpl. tauto.
  - discriminate.
  - simpl. intros [H|[]]. discriminate.
Defined.

(** ** Order of the list *)

(** X19. Tasks are stored newest first: submitting a series of drafts,
    none of them blank, from any state puts the new tasks in front of the
    old list in the reverse of the order they were submitted in. *)
Theorem newest_first (st : State) (es : list (jsstring * Priority * Z)) :
  Forall (fun e => blank (fst (fst e)) = false) es ->
  todos (fold_left step (flat_map submit es) st)
  = rev (List.map submitted es) ++ todos st.
Proof.
  revert st. induction es as [|[[draft p] now] es IH]; intros st Hall.
  - reflexivity.
  - inversion Hall as [|? ? Hb Hrest]; subst. simpl in Hb.
    cbn [flat_map List.map rev]. rewrite fold_left_app, IH by assumption.
    rewrite <- app_assoc. f_equal.
    unfold submit, step; simpl. run_handler addTodo.
    rewrite truthy_trim, Hb. reflexivity.
Qed.

Lemma newest_first_witness :
  List.map text
    (todos (fold_left step
              (flat_map submit [(lit "Buy milk", high, 7);
                                (lit " Call Bob", low, 9)]) initial))
  = [lit "Call Bob"; lit "Buy milk"].
Proof.
  rewrite (@newest_first initial [(lit "Buy milk", high, 7);
                                   (lit " Call Bob", low, 9)]).
  - reflexivity.
  - repeat constructor.
Defined.
